(** * Agent simulation engine (agent_sim_simple.py / agent_sim.py)

    Shallow embedding of the pure-Python engine [AgentSimulation] of
    [agent_sim_simple.py].  Reputations are Python floats; they are modelled
    here as exact rationals [Q] (rounding of float arithmetic is not modelled).
    The [self.agents] dict is an insertion-ordered association list, so that
    [list(self.agents.keys())] keeps creation order, as in CPython.
    Random draws ([random.uniform], [random.choice], [random.choices]) are
    explicit inputs of the operations that make them. *)

From Stdlib Require Import QArith Qround String List Bool Arith ZArith Lia.
From Stdlib Require Import DecimalString DecimalNat.
Import ListNotations.

Module AgentSim.

Open Scope Q_scope.

(** ** The reputation store: [self.agents : Dict[str, float]] *)

Definition Store := list (string * Q).

(** [self.agents[k]] / [k in self.agents] *)
Fixpoint lookup (k : string) (m : Store) : option Q :=
  match m with
  | [] => None
  | (k', v) :: t => if String.eqb k k' then Some v else lookup k t
  end.

Definition mem (k : string) (m : Store) : bool :=
  match lookup k m with Some _ => true | None => false end.

(** [self.agents[k] = v]: overwrite in place, or append a new key at the end *)
Fixpoint assign (k : string) (v : Q) (m : Store) : Store :=
  match m with
  | [] => [(k, v)]
  | (k', v') :: t => if String.eqb k k' then (k, v) :: t else (k', v') :: assign k v t
  end.

(** [list(self.agents.keys())] and [self.agents.values()] *)
Definition keys (m : Store) : list string := map fst m.
Definition values (m : Store) : list Q := map snd m.

(** Python comparisons on numbers *)
Definition Qltb (x y : Q) : bool := negb (Qle_bool y x).

(** Python [min(a, b)]: keeps [a] unless [b < a]; [max(a, b)]: keeps [a]
    unless [b > a]. *)
Definition py_min (a b : Q) : Q := if Qltb b a then b else a.
Definition py_max (a b : Q) : Q := if Qltb a b then b else a.

(** ** Grounded functions ([_register_grounded_functions]) *)

(** [update_reputation(agent_name, delta)] *)
Definition update_reputation (agent_name : string) (change : Q) (s : Store) : Q * Store :=
  match lookup agent_name s with
  | Some old_rep =>
      let v := py_max 0 (py_min 200 (old_rep + change)) in
      (v, assign agent_name v s)
  | None => (0, s)
  end.

(** [get_reputation(agent_name)] *)
Definition get_reputation (agent_name : string) (s : Store) : Q :=
  match lookup agent_name s with Some r => r | None => 0 end.

(** [transfer_reputation(from_agent, to_agent, amount)]: returns 1 or 0.
    The credit re-reads [self.agents[to_agent]] after the debit ([+=]). *)
Definition transfer_reputation (from_agent to_agent : string) (transfer_amount : Q)
    (s : Store) : Z * Store :=
  if mem from_agent s && mem to_agent s then
    match lookup from_agent s with
    | Some rf =>
        if Qle_bool transfer_amount rf then
          let s1 := assign from_agent (rf - transfer_amount) s in
          match lookup to_agent s1 with
          | Some rt => (1%Z, assign to_agent (rt + transfer_amount * (11 # 10)) s1)
          | None => (0%Z, s)
          end
        else (0%Z, s)
    | None => (0%Z, s)
    end
  else (0%Z, s).

(** ** Rules ([_load_rules]) and the dispatcher [SimpleMeTTaRuntime.run] *)

Definition action_contribute (agent : string) (s : Store) := update_reputation agent 15 s.
Definition action_share (agent : string) (s : Store) := update_reputation agent 8 s.
Definition action_idle (agent : string) (s : Store) := update_reputation agent (-2) s.
Definition action_transfer (a b : string) (amount : Q) (s : Store) :=
  transfer_reputation a b amount s.

(** The four registered rules, as parsed commands [!(rule args...)]. *)
Inductive Command :=
| CContribute (agent : string)
| CShare (agent : string)
| CIdle (agent : string)
| CTransfer (from_agent to_agent : string) (amount : Q).

(** Result of a command, with the rule's return value as a number. *)
Definition run (c : Command) (s : Store) : Q * Store :=
  match c with
  | CContribute a => action_contribute a s
  | CShare a => action_share a s
  | CIdle a => action_idle a s
  | CTransfer a b amt => let '(r, s') := action_transfer a b amt s in (inject_Z r, s')
  end.

(** ** The simulation object *)

Inductive Action := Contribute | Share | Trade | Idle.

(** [(agent_name, action, reputation_change)] *)
Definition HistEntry : Type := (string * Action * Q)%type.

Record Sim := mkSim {
  num_agents : Z;
  agents : Store;
  action_history : list HistEntry;
  step_count : nat
}.

(** [f"Agent_{i}"] *)
Definition agent_name (i : nat) : string :=
  ("Agent_" ++ NilZero.string_of_uint (Nat.to_uint i))%string.

(** [_initialize_agents]: [for i in range(self.num_agents)], with [draw i]
    the value of the [i]-th [random.uniform(50, 100)] call. *)
Fixpoint init_from (k i : nat) (draw : nat -> Q) (s : Store) : Store :=
  match k with
  | O => s
  | S k' => init_from k' (S i) draw (assign (agent_name i) (draw i) s)
  end.

Definition initialize_agents (n : Z) (draw : nat -> Q) (s : Store) : Store :=
  init_from (Z.to_nat n) 0 draw s.

(** [AgentSimulation(num_agents)] *)
Definition construct (n : Z) (draw : nat -> Q) : Sim :=
  mkSim n (initialize_agents n draw []) [] 0.

(** [reset(num_agents=None)] *)
Definition reset (n : option Z) (draw : nat -> Q) (sim : Sim) : Sim :=
  let n' := match n with Some k => k | None => num_agents sim end in
  mkSim n' (initialize_agents n' draw []) [] 0.

(** [get_health_score]: [sum(values) / len(agents)], 0 on an empty store *)
Definition get_health_score (s : Store) : Q :=
  match s with
  | [] => 0
  | _ => fold_left Qplus (values s) 0 / inject_Z (Z.of_nat (length s))
  end.

(** [get_reputation_distribution]: (high, medium, low) *)
Record Distribution := mkDist { high : nat; medium : nat; low : nat }.

Definition classify (d : Distribution) (reputation : Q) : Distribution :=
  if Qle_bool 100 reputation then mkDist (S (high d)) (medium d) (low d)
  else if Qle_bool 50 reputation then mkDist (high d) (S (medium d)) (low d)
  else mkDist (high d) (medium d) (S (low d)).

Definition get_reputation_distribution (s : Store) : Distribution :=
  fold_left classify (values s) (mkDist 0 0 0).

(** ** One step ([AgentSimulation.step]) *)

(** The random draws of one step: [random.choice] over the agent keys (an
    index, taken modulo the list length), the action from [random.choices],
    and for a trade the partner index and [random.uniform(5, 15)]. *)
Record Choice := mkChoice {
  ch_agent : nat;
  ch_action : Action;
  ch_partner : nat;
  ch_amount : Q
}.

(** [random.choice(seq)]: raises [IndexError] ([None]) on an empty list. *)
Definition py_choice {A : Type} (i : nat) (l : list A) : option A :=
  match l with
  | [] => None
  | _ :: _ => nth_error l (i mod length l)
  end.

(** The dict returned by [step] *)
Record StepInfo := mkStepInfo {
  si_step : nat;
  si_agent : string;
  si_action : Action;
  si_old : Q;
  si_new : Q;
  si_change : Q;
  si_health : Q
}.

(** A call either returns, or raises after having mutated the object. *)
Inductive Outcome :=
| Raised (s : Sim)
| Returned (r : StepInfo) (s : Sim).

(** The action branch of [step], on the store. *)
Definition apply_action (c : Choice) (name : string) (st : Store) : Store :=
  match ch_action c with
  | Contribute => snd (action_contribute name st)
  | Share => snd (action_share name st)
  | Trade =>
      let other_agents := filter (fun a => negb (String.eqb a name)) (keys st) in
      match other_agents with
      | [] => st
      | _ :: _ =>
          match py_choice (ch_partner c) other_agents with
          | Some partner => snd (action_transfer name partner (ch_amount c) st)
          | None => st
          end
      end
  | Idle => snd (action_idle name st)
  end.

Definition step (c : Choice) (sim : Sim) : Outcome :=
  let sc := S (step_count sim) in
  let sim1 := mkSim (num_agents sim) (agents sim) (action_history sim) sc in
  match py_choice (ch_agent c) (keys (agents sim)) with
  | None => Raised sim1
  | Some name =>
      match lookup name (agents sim) with
      | None => Raised sim1
      | Some old_reputation =>
          let st' := apply_action c name (agents sim) in
          match lookup name st' with
          | None => Raised (mkSim (num_agents sim) st' (action_history sim) sc)
          | Some new_reputation =>
              let reputation_change := new_reputation - old_reputation in
              let hist := action_history sim ++ [(name, ch_action c, reputation_change)] in
              Returned
                (mkStepInfo sc name (ch_action c) old_reputation new_reputation
                   reputation_change (get_health_score st'))
                (mkSim (num_agents sim) st' hist sc)
          end
      end
  end.

(** A loop of [step()] calls that all return; [None] as soon as one raises. *)
Fixpoint run_steps (cs : list Choice) (sim : Sim) : option (list StepInfo * Sim) :=
  match cs with
  | [] => Some ([], sim)
  | c :: cs' =>
      match step c sim with
      | Raised _ => None
      | Returned r sim' =>
          match run_steps cs' sim' with
          | Some (rs, sim'') => Some (r :: rs, sim'')
          | None => None
          end
      end
  end.

(** ** Reachable states *)

(** A step whose draws are in range: [random.uniform(5, 15)]. *)
Definition valid_choice (c : Choice) : Prop := 5 <= ch_amount c <= 15.

(** Initial draws of [random.uniform(50, 100)]. *)
Definition valid_draw (draw : nat -> Q) : Prop := forall i, 50 <= draw i <= 100.

Inductive reachable : Sim -> Prop :=
| reach_construct n draw :
    valid_draw draw -> reachable (construct n draw)
| reach_step c sim r sim' :
    reachable sim -> valid_choice c -> step c sim = Returned r sim' -> reachable sim'
| reach_step_raised c sim sim' :
    reachable sim -> valid_choice c -> step c sim = Raised sim' -> reachable sim'
| reach_reset n draw sim :
    reachable sim -> valid_draw draw -> reachable (reset n draw sim)
| reach_command cmd sim :
    reachable sim ->
    reachable (mkSim (num_agents sim) (snd (run cmd (agents sim)))
                 (action_history sim) (step_count sim)).

(** Reference counters for the tiers of [get_reputation_distribution] *)
Definition count_tier (p : Q -> bool) (s : Store) : nat := length (filter p (values s)).

(** Sum of all reputations of the store *)
Fixpoint store_sum (s : Store) : Q :=
  match s with
  | [] => 0
  | (_, v) :: t => v + store_sum t
  end.

(** Clamp of a value to [lo, hi] *)
Definition clamp (lo hi x : Q) : Q :=
  if Qltb x lo then lo else if Qltb hi x then hi else x.


End AgentSim.

(** * Dashboard code that consumes the engine (visualizer.py, app.py) *)

Module Dashboard.
Import AgentSim.
Open Scope Q_scope.
Open Scope string_scope.

(** [visualizer._get_reputation_color] *)
Definition get_reputation_color (reputation : Q) : string :=
  let normalized := py_max 0 (py_min 1 (reputation / 200)) in
  if Qltb normalized (1 # 4) then "#E74C3C"
  else if Qltb normalized (1 # 2) then "#E67E22"
  else if Qltb normalized (3 # 4) then "#F39C12"
  else "#27AE60".

(** [app.get_status_emoji] *)
Definition get_status_emoji (reputation : Q) : string :=
  if Qle_bool 150 reputation then "🟢 Excellent"
  else if Qle_bool 100 reputation then "🟡 Good"
  else if Qle_bool 50 reputation then "🟠 Average"
  else "🔴 Low".

(** The part of [st.session_state] that [run_simulation] reads and writes
    (widgets, placeholders and the inter-step [time.sleep] are left out). *)
Record Session := mkSession {
  ss_simulation : option Sim;
  ss_is_running : bool;
  ss_stop_flag : bool;
  ss_history : list StepInfo;
  ss_health_score_history : list Q;
  ss_agent_states_history : list Store;
  ss_current_view_step : nat
}.

(** The [for step in range(num_steps)] loop of [run_simulation]; [choices i]
    are the random draws of the [i]-th [simulation.step()].  [None] when a
    step raises (the exception leaves [run_simulation]). *)
Fixpoint run_loop (steps : list nat) (choices : nat -> Choice) (sim : Sim) (ss : Session)
  : option (Sim * Session) :=
  match steps with
  | [] => Some (sim, ss)
  | i :: rest =>
      if ss_stop_flag ss then
        Some (sim, mkSession (ss_simulation ss) false (ss_stop_flag ss) (ss_history ss)
                     (ss_health_score_history ss) (ss_agent_states_history ss)
                     (ss_current_view_step ss))
      else
        match step (choices i) sim with
        | Raised _ => None
        | Returned step_info sim' =>
            run_loop rest choices sim'
              (mkSession (ss_simulation ss) (ss_is_running ss) (ss_stop_flag ss)
                 (ss_history ss ++ [step_info])%list
                 (ss_health_score_history ss ++ [si_health step_info])%list
                 (ss_agent_states_history ss ++ [agents sim'])%list
                 (S i))
        end
  end.

(** [run_simulation(num_agents, num_steps, step_delay)] *)
Definition run_simulation (num_agents : Z) (num_steps : Z) (draw : nat -> Q)
    (choices : nat -> Choice) (ss : Session) : option Session :=
  let sim0 :=
    match ss_simulation ss with
    | None => construct num_agents draw
    | Some sim => reset (Some num_agents) draw sim
    end in
  let ss1 := mkSession (Some sim0) true (ss_stop_flag ss) [] [] [] 0 in
  match run_loop (seq 0 (Z.to_nat num_steps)) choices sim0 ss1 with
  | None => None
  | Some (sim', ss2) =>
      Some (mkSession (Some sim') false (ss_stop_flag ss2) (ss_history ss2)
              (ss_health_score_history ss2) (ss_agent_states_history ss2)
              (ss_current_view_step ss2))
  end.

End Dashboard.

(** * The text interface [SimpleMeTTaRuntime.run]

    [step] reaches the rules through command strings such as
    [f"!(action-contribute {agent_name})"].  A Python [str] is modelled as
    its list of code points; store keys are the UTF-8 bytes of the name, so
    an ASCII name is the same text in both. *)
Module MeTTaText.
Import AgentSim.
Open Scope nat_scope.
Local Set Warnings "-abstract-large-number".

Definition text := list nat.

(** ASCII [str] literals as code points *)
Definition txt (s : string) : text := map Ascii.nat_of_ascii (list_ascii_of_string s).

(** [str.isspace()] on one code point, the separators of [str.split()] *)
Definition py_isspace (c : nat) : bool :=
  ((9 <=? c) && (c <=? 13)) || ((28 <=? c) && (c <=? 32)) || (c =? 133) || (c =? 160) ||
  (c =? 5760) || ((8192 <=? c) && (c <=? 8202)) || (c =? 8232) || (c =? 8233) ||
  (c =? 8239) || (c =? 8287) || (c =? 12288).

(** [str.split()] with no separator: the maximal runs of non-space code
    points; [cur] holds the current run, reversed. *)
Fixpoint split_aux (l : text) (cur : text) : list text :=
  match l with
  | [] => match cur with [] => [] | _ => [rev cur] end
  | c :: r =>
      if py_isspace c then
        match cur with [] => split_aux r [] | _ => rev cur :: split_aux r [] end
      else split_aux r (c :: cur)
  end.

Definition py_split (l : text) : list text := split_aux l [].

(** [command.startswith('!(') and command.endswith(')')] *)
Definition startswith_open (l : text) : bool :=
  match l with 33 :: 40 :: _ => true | _ => false end.
Definition endswith_close (l : text) : bool :=
  match rev l with 41 :: _ => true | _ => false end.

(** [command[2:-1]] *)
Definition slice_2_m1 (l : text) : text := skipn 2 (firstn (length l - 1) l).

(** UTF-8 encoding of a code point, the bytes of a store key *)
Definition utf8_char (c : nat) : string :=
  let b n := Ascii.ascii_of_nat n in
  if c <? 128 then String (b c) EmptyString
  else if c <? 2048 then
    String (b (192 + c / 64)) (String (b (128 + c mod 64)) EmptyString)
  else if c <? 65536 then
    String (b (224 + c / 4096)) (String (b (128 + (c / 64) mod 64))
      (String (b (128 + c mod 64)) EmptyString))
  else
    String (b (240 + c / 262144)) (String (b (128 + (c / 4096) mod 64))
      (String (b (128 + (c / 64) mod 64)) (String (b (128 + c mod 64)) EmptyString))).

Fixpoint to_key (t : text) : string :=
  match t with [] => EmptyString | c :: r => append (utf8_char c) (to_key r) end.

(** [self.rules], filled by [_load_rules] in this order *)
Inductive Rule := RuleContribute | RuleShare | RuleIdle | RuleTransfer.

Definition rules : list (text * Rule) :=
  [(txt "action-contribute", RuleContribute); (txt "action-share", RuleShare);
   (txt "action-idle", RuleIdle); (txt "transfer-reputation", RuleTransfer)].

Fixpoint find_rule (name : text) (tbl : list (text * Rule)) : option Rule :=
  match tbl with
  | [] => None
  | (k, r) :: t => if list_eq_dec Nat.eq_dec name k then Some r else find_rule name t
  end.


(** What [run] gives back: [None], the rule's return value, or an
    exception (IndexError on [parts[0]], TypeError on a wrong number of
    arguments, ValueError from [float]). *)
Inductive RunResult := RNone | RValue (v : Q) | RRaise.

Section Runtime.

(** Python's [float(str)]: [None] when it raises ValueError *)
Variable py_float : text -> option Q.

(** [self.rules[action]( *args)]: the rule called with the words after the name *)
Definition call_rule (r : Rule) (args : list text) (s : Store) : RunResult * Store :=
  match r, args with
  | RuleContribute, [agent] => let '(v, s') := action_contribute (to_key agent) s in (RValue v, s')
  | RuleShare, [agent] => let '(v, s') := action_share (to_key agent) s in (RValue v, s')
  | RuleIdle, [agent] => let '(v, s') := action_idle (to_key agent) s in (RValue v, s')
  | RuleTransfer, [from_agent; to_agent; amount] =>
      match py_float amount with
      | Some x =>
          let '(v, s') := action_transfer (to_key from_agent) (to_key to_agent) x s in
          (RValue (inject_Z v), s')
      | None => (RRaise, s)
      end
  | _, _ => (RRaise, s)
  end.

(** [SimpleMeTTaRuntime.run(command)] over the agents store *)
Definition run_text (command : text) (s : Store) : RunResult * Store :=
  if startswith_open command && endswith_close command then
    let parts := py_split (slice_2_m1 command) in
    match parts with
    | [] => (RRaise, s)
    | action :: _ =>
        let args := if 1 <? length parts then tl parts else [] in
        match find_rule action rules with
        | Some r => call_rule r args s
        | None => (RNone, s)
        end
    end
  else (RNone, s).

End Runtime.

(** The commands [step] builds *)
Definition fmt_contribute (agent_name : string) : text :=
  txt "!(action-contribute " ++ txt agent_name ++ txt ")".
Definition fmt_share (agent_name : string) : text :=
  txt "!(action-share " ++ txt agent_name ++ txt ")".
Definition fmt_idle (agent_name : string) : text :=
  txt "!(action-idle " ++ txt agent_name ++ txt ")".
Definition fmt_transfer (agent_name partner : string) (transfer_amount : text) : text :=
  txt "!(transfer-reputation " ++ txt agent_name ++ txt " " ++ txt partner ++ txt " " ++
  transfer_amount ++ txt ")".

(** A name that [str.split()] keeps as one word and whose key is itself:
    non-empty, ASCII, no white space. *)
Definition is_word (a : string) : bool :=
  negb (String.eqb a EmptyString) &&
  forallb (fun ch => (Ascii.nat_of_ascii ch <? 128) && negb (py_isspace (Ascii.nat_of_ascii ch)))
    (list_ascii_of_string a).

End MeTTaText.

Module AgentSimFacts.
Import AgentSim.
Open Scope Q_scope.

(** ** Store lemmas *)

Lemma lookup_assign_same (k : string) (v : Q) (m : Store) :
  lookup k (assign k v m) = Some v.
Proof.
  induction m as [| [k' v'] t IH]; simpl.
  - now rewrite String.eqb_refl.
  - destruct (String.eqb k k') eqn:E; simpl.
    + now rewrite String.eqb_refl.
    + now rewrite E.
Qed.

Lemma lookup_assign_other (k k' : string) (v : Q) (m : Store) :
  k <> k' -> lookup k' (assign k v m) = lookup k' m.
Proof.
  intros Hne. induction m as [| [j w] t IH]; simpl.
  - destruct (String.eqb k' k) eqn:E; [apply String.eqb_eq in E; congruence | easy].
  - destruct (String.eqb k j) eqn:E; simpl.
    + apply String.eqb_eq in E; subst j.
      destruct (String.eqb k' k) eqn:E'; [apply String.eqb_eq in E'; congruence | easy].
    + now rewrite IH.
Qed.

Lemma store_sum_assign (k : string) (o v : Q) (m : Store) :
  lookup k m = Some o -> store_sum (assign k v m) == store_sum m - o + v.
Proof.
  induction m as [| [j w] t IH]; simpl; [discriminate |].
  destruct (String.eqb k j) eqn:E; simpl.
  - intros H; injection H as <-. ring.
  - intros H. rewrite (IH H). ring.
Qed.

Lemma mem_lookup (k : string) (m : Store) (v : Q) :
  lookup k m = Some v -> mem k m = true.
Proof. unfold mem. now intros ->. Qed.

Lemma Qle_bool_false (x y : Q) : y < x -> Qle_bool x y = false.
Proof.
  intros H. destruct (Qle_bool x y) eqn:E; [| reflexivity].
  apply Qle_bool_iff in E. exfalso. apply (Qlt_not_le _ _ H E).
Qed.

Lemma Qltb_iff (x y : Q) : Qltb x y = true <-> x < y.
Proof.
  unfold Qltb. split.
  - intros H. apply negb_true_iff in H. apply Qnot_le_lt.
    intros Hle. apply Qle_bool_iff in Hle. congruence.
  - intros H. apply negb_true_iff. now apply Qle_bool_false.
Qed.

Lemma Qltb_true (x y : Q) : x < y -> Qltb x y = true.
Proof. apply Qltb_iff. Qed.

Lemma Qltb_false (x y : Q) : y <= x -> Qltb x y = false.
Proof. intros H. unfold Qltb. apply negb_false_iff. now apply Qle_bool_iff. Qed.

Lemma Qltb_false_le (x y : Q) : Qltb x y = false -> y <= x.
Proof. unfold Qltb. intros H. apply negb_false_iff in H. now apply Qle_bool_iff. Qed.

(** [max(0, min(200, x))] is the clamp of [x] to [0, 200]. *)
Lemma py_clamp_eq (x : Q) : py_max 0 (py_min 200 x) == clamp 0 200 x.
Proof.
  unfold py_max, py_min, clamp.
  destruct (Qlt_le_dec x 0) as [H0 | H0].
  - rewrite (Qltb_true x 200) by (apply Qlt_trans with 0; [exact H0 | reflexivity]).
    rewrite (Qltb_false 0 x) by now apply Qlt_le_weak.
    rewrite (Qltb_true x 0) by exact H0. reflexivity.
  - rewrite (Qltb_false x 0) by exact H0.
    destruct (Qlt_le_dec 200 x) as [H2 | H2].
    + rewrite (Qltb_false x 200) by now apply Qlt_le_weak.
      rewrite (Qltb_true 0 200) by reflexivity.
      rewrite (Qltb_true 200 x) by exact H2. reflexivity.
    + rewrite (Qltb_false 200 x) by exact H2.
      destruct (Qltb x 200) eqn:E.
      * destruct (Qltb 0 x) eqn:E2; [reflexivity |].
        apply Qle_antisym; [exact H0 | now apply Qltb_false_le].
      * rewrite (Qltb_true 0 200) by reflexivity.
        apply Qle_antisym; [now apply Qltb_false_le | exact H2].
Qed.

(** ** Steps *)

Definition record_of (r : StepInfo) : HistEntry := (si_agent r, si_action r, si_change r).

Lemma step_returned_shape (c : Choice) (sim sim' : Sim) (r : StepInfo) :
  step c sim = Returned r sim' ->
  action_history sim' = action_history sim ++ [record_of r] /\
  step_count sim' = S (step_count sim) /\
  si_step r = S (step_count sim).
Proof.
  unfold step.
  destruct (py_choice (ch_agent c) (keys (agents sim))) as [name |]; [| discriminate].
  destruct (lookup name (agents sim)) as [old |]; [| discriminate].
  destruct (lookup name (apply_action c name (agents sim))) as [nw |]; [| discriminate].
  intros H. injection H as <- <-. simpl. auto.
Qed.

Lemma run_steps_shape (cs : list Choice) (sim sim' : Sim) (rs : list StepInfo) :
  run_steps cs sim = Some (rs, sim') ->
  length rs = length cs /\
  action_history sim' = action_history sim ++ map record_of rs /\
  step_count sim' = (step_count sim + length cs)%nat /\
  (forall i r, nth_error rs i = Some r -> si_step r = (step_count sim + S i)%nat).
Proof.
  revert sim rs. induction cs as [| c cs IH]; intros sim rs; simpl.
  - intros H. injection H as <- <-. simpl.
    rewrite app_nil_r, Nat.add_0_r. repeat split; auto.
    intros i r Hr. destruct i; discriminate.
  - destruct (step c sim) as [s1 | r1 s1] eqn:Hs; [discriminate |].
    destruct (run_steps cs s1) as [[rs1 s2] |] eqn:Hr; [| discriminate].
    intros H. injection H as <- <-.
    destruct (step_returned_shape _ _ _ _ Hs) as (Hh & Hc & Hi).
    destruct (IH _ _ Hr) as (Hl & Hh' & Hc' & Hi').
    simpl. repeat split.
    + now rewrite Hl.
    + rewrite Hh', Hh, <- app_assoc. reflexivity.
    + rewrite Hc', Hc. lia.
    + intros [| i] r Hr'; simpl in Hr'.
      * injection Hr' as <-. rewrite Hi. lia.
      * rewrite (Hi' _ _ Hr'), Hc. lia.
Qed.

Lemma run_steps_reachable (cs : list Choice) (sim sim' : Sim) (rs : list StepInfo) :
  reachable sim -> Forall valid_choice cs ->
  run_steps cs sim = Some (rs, sim') -> reachable sim'.
Proof.
  revert sim rs. induction cs as [| c cs IH]; intros sim rs Hr Hv; simpl.
  - intros H. now injection H as _ <-.
  - inversion Hv as [| ? ? Hc Hcs]; subst.
    destruct (step c sim) as [s1 | r1 s1] eqn:Hs; [discriminate |].
    destruct (run_steps cs s1) as [[rs1 s2] |] eqn:Hrs; [| discriminate].
    intros H. injection H as _ <-.
    eapply IH; [| exact Hcs | exact Hrs].
    eapply reach_step; eauto.
Qed.

(** ** Tiers of [get_reputation_distribution] *)

Definition is_high (r : Q) : bool := Qle_bool 100 r.
Definition is_medium (r : Q) : bool := Qle_bool 50 r && Qltb r 100.
Definition is_low (r : Q) : bool := Qltb r 50.

Lemma fold_classify (l : list Q) (d : Distribution) :
  fold_left classify l d =
  mkDist (high d + length (filter is_high l))
         (medium d + length (filter is_medium l))
         (low d + length (filter is_low l)).
Proof.
  revert d. induction l as [| x l IH]; intros d; simpl.
  - destruct d; simpl. now rewrite !Nat.add_0_r.
  - rewrite IH. unfold classify, is_high, is_medium, is_low, Qltb.
    destruct (Qle_bool 100 x) eqn:H100.
    + assert (H50 : Qle_bool 50 x = true).
      { apply Qle_bool_iff. apply Qle_trans with 100;
          [discriminate | now apply Qle_bool_iff]. }
      rewrite H50. simpl. f_equal; lia.
    + destruct (Qle_bool 50 x) eqn:H50; simpl; f_equal; lia.
Qed.

Lemma fold_classify_total (l : list Q) (d : Distribution) :
  (high (fold_left classify l d) + medium (fold_left classify l d)
   + low (fold_left classify l d) = high d + medium d + low d + length l)%nat.
Proof.
  revert d. induction l as [| x l IH]; intros d; simpl; [lia |].
  rewrite IH. unfold classify.
  destruct (Qle_bool 100 x); [| destruct (Qle_bool 50 x)]; simpl; lia.
Qed.

(** ** Concrete inputs *)

Definition draw_60_80 (i : nat) : Q := if Nat.eqb i 0 then 60 else 80.
Definition contribute_first : Choice := mkChoice 0 Contribute 0 10.
Definition trade_second_10 : Choice := mkChoice 1 Trade 0 10.
Definition trade_first_10 : Choice := mkChoice 0 Trade 0 10.
Definition draw_60 (i : nat) : Q := 60.

End AgentSimFacts.

Module Claims.
Import AgentSim AgentSimFacts.
Open Scope Q_scope.
Open Scope string_scope.

(** Claim C1 (code defect): the clamp to [0, 200] does not hold in every
    reachable state.  From [AgentSimulation(2)] with initial reputations 60
    and 80, ten [contribute] steps of [Agent_0] bring it to the ceiling 200;
    a [trade] of 10 by [Agent_1] then credits [Agent_0] with 11 unclamped,
    leaving it at 211. *)
Lemma reputation_exceeds_200_after_trade :
  exists sim v,
    reachable sim /\ lookup "Agent_0" (agents sim) = Some v /\ 200 < v.
Proof.
  destruct (run_steps (repeat contribute_first 10 ++ [trade_second_10])
              (construct 2 draw_60_80)) as [[rs sim] |] eqn:E.
  - exists sim.
    pose proof E as E'. vm_compute in E'. injection E' as _ <-.
    eexists. split; [| split; [reflexivity | reflexivity]].
    eapply run_steps_reachable; [| | exact E].
    + apply reach_construct. intros i. unfold draw_60_80.
      destruct (Nat.eqb i 0); split; vm_compute; discriminate.
    + apply Forall_forall. intros c Hc.
      repeat (destruct Hc as [<- | Hc]); try contradiction;
        split; vm_compute; discriminate.
  - vm_compute in E. discriminate.
Qed.

(** Claim C3: when [a] and [b] both exist, [a <> b] and [a]'s reputation is at
    least [amt], [transfer_reputation a b amt] returns 1, debits [a] by exactly
    [amt], credits [b] by exactly [amt * 1.1], and the total of the store grows
    by exactly [0.1 * amt]. *)
Theorem transfer_success (s : Store) (a b : string) (amt ra rb : Q)
  (Ha : lookup a s = Some ra) (Hb : lookup b s = Some rb) (Hab : a <> b)
  (Hle : amt <= ra) :
  exists s',
    transfer_reputation a b amt s = (1%Z, s') /\
    lookup a s' = Some (ra - amt) /\
    lookup b s' = Some (rb + amt * (11 # 10)) /\
    store_sum s' == store_sum s + (1 # 10) * amt.
Proof.
  unfold transfer_reputation.
  rewrite (mem_lookup _ _ _ Ha), (mem_lookup _ _ _ Hb), Ha. simpl.
  rewrite (proj2 (Qle_bool_iff _ _) Hle).
  rewrite (lookup_assign_other _ _ _ _ Hab), Hb.
  eexists. split; [reflexivity |]. split; [| split].
  - rewrite lookup_assign_other by congruence. apply lookup_assign_same.
  - apply lookup_assign_same.
  - rewrite (store_sum_assign b rb).
    + rewrite (store_sum_assign a ra _ _ Ha). ring.
    + now rewrite lookup_assign_other.
Qed.

Lemma transfer_success_witness :
  lookup "Agent_0" [("Agent_0", 60); ("Agent_1", 80)] = Some 60 /\
  exists s',
    transfer_reputation "Agent_0" "Agent_1" 10 [("Agent_0", 60); ("Agent_1", 80)]
      = (1%Z, s') /\
    lookup "Agent_0" s' = Some (60 - 10) /\
    lookup "Agent_1" s' = Some (80 + 10 * (11 # 10)) /\
    store_sum s' == store_sum [("Agent_0", 60); ("Agent_1", 80)] + (1 # 10) * 10.
Proof.
  split; [reflexivity |].
  apply (transfer_success _ _ _ 10 60 80); [reflexivity | reflexivity | discriminate |].
  vm_compute. discriminate.
Defined.

(** Claim C4: when [a] is unknown, [b] is unknown, or [a]'s reputation is
    below [amt], [transfer_reputation a b amt] returns 0 and the store is left
    exactly as it was. *)
Theorem transfer_failure_no_mutation (s : Store) (a b : string) (amt : Q)
  (Hfail : lookup a s = None \/ lookup b s = None \/
           exists ra, lookup a s = Some ra /\ ra < amt) :
  transfer_reputation a b amt s = (0%Z, s).
Proof.
  unfold transfer_reputation, mem.
  destruct Hfail as [Ha | [Hb | (ra & Ha & Hlt)]].
  - now rewrite Ha.
  - rewrite Hb, andb_false_r. reflexivity.
  - rewrite Ha. destruct (lookup b s); simpl; [| reflexivity].
    now rewrite Qle_bool_false.
Qed.

Lemma transfer_failure_no_mutation_witness :
  transfer_reputation "Agent_0" "Agent_1" 70 [("Agent_0", 60); ("Agent_1", 80)]
    = (0%Z, [("Agent_0", 60); ("Agent_1", 80)]).
Proof.
  apply transfer_failure_no_mutation. right. right.
  exists 60. split; [reflexivity | vm_compute; reflexivity].
Defined.

(** Claim C7: [update_reputation agent delta] on a known agent with score
    [old] stores and returns [clamp(old + delta, 0, 200)] (exactly 200 above
    the ceiling, exactly 0 below the floor); on an unknown agent it returns 0
    and leaves the store unchanged. *)
Theorem update_reputation_clamps (s : Store) (a : string) (d : Q) :
  (forall old, lookup a s = Some old ->
     fst (update_reputation a d s) == clamp 0 200 (old + d) /\
     lookup a (snd (update_reputation a d s)) = Some (fst (update_reputation a d s)) /\
     (200 < old + d -> fst (update_reputation a d s) = 200) /\
     (old + d < 0 -> fst (update_reputation a d s) = 0)) /\
  (lookup a s = None -> update_reputation a d s = (0, s)).
Proof.
  unfold update_reputation. split.
  - intros old Hl. rewrite Hl. simpl.
    split; [| split; [apply lookup_assign_same | split]].
    + apply py_clamp_eq.
    + intros Hgt. unfold py_min, py_max.
      rewrite (Qltb_false (old + d) 200) by now apply Qlt_le_weak.
      rewrite (Qltb_true 0 200) by reflexivity. reflexivity.
    + intros Hlt. unfold py_min, py_max.
      rewrite (Qltb_true (old + d) 200)
        by (apply Qlt_trans with 0; [exact Hlt | reflexivity]).
      rewrite (Qltb_false 0 (old + d)) by now apply Qlt_le_weak.
      reflexivity.
  - intros Hl. now rewrite Hl.
Qed.

(** Claim C10: [transfer_reputation a a amt] with [a] known and at least
    [amt] succeeds, and [a] ends at [ra - amt + amt * 1.1], that is
    [ra + 0.1 * amt]. *)
Theorem transfer_to_self (s : Store) (a : string) (amt ra : Q)
  (Ha : lookup a s = Some ra) (Hle : amt <= ra) :
  exists s',
    transfer_reputation a a amt s = (1%Z, s') /\
    lookup a s' = Some (ra - amt + amt * (11 # 10)) /\
    ra - amt + amt * (11 # 10) == ra + (1 # 10) * amt.
Proof.
  unfold transfer_reputation.
  rewrite (mem_lookup _ _ _ Ha), Ha. simpl.
  rewrite (proj2 (Qle_bool_iff _ _) Hle), lookup_assign_same.
  eexists. split; [reflexivity |]. split.
  - apply lookup_assign_same.
  - ring.
Qed.

Lemma transfer_to_self_witness :
  lookup "Agent_0" [("Agent_0", 60)] = Some 60 /\
  exists s',
    transfer_reputation "Agent_0" "Agent_0" 10 [("Agent_0", 60)] = (1%Z, s') /\
    lookup "Agent_0" s' = Some (60 - 10 + 10 * (11 # 10)) /\
    60 - 10 + 10 * (11 # 10) == 60 + (1 # 10) * 10.
Proof.
  split; [reflexivity |].
  apply transfer_to_self; [reflexivity |]. vm_compute. discriminate.
Defined.

(** Claim C5 (as the code has it): a zero or negative [num_agents] is not
    rejected.  The constructor and [reset] complete and produce a simulation
    with no agents, an empty history and [step_count = 0]; a following
    [step()] raises ([random.choice] of an empty list) after having
    incremented [step_count]. *)
Theorem nonpositive_agent_count_accepted (n : Z) (draw : nat -> Q) (sim : Sim)
  (c : Choice) (Hn : (n <= 0)%Z) :
  construct n draw = mkSim n [] [] 0 /\
  reset (Some n) draw sim = mkSim n [] [] 0 /\
  step c (construct n draw) = Raised (mkSim n [] [] 1).
Proof.
  assert (H0 : Z.to_nat n = 0%nat) by lia.
  unfold construct, reset, initialize_agents. rewrite H0. simpl. auto.
Qed.

Lemma nonpositive_agent_count_accepted_witness :
  (0 <= 0)%Z /\
  construct 0 draw_60 = mkSim 0 [] [] 0 /\
  reset (Some 0%Z) draw_60 (construct 3 draw_60) = mkSim 0 [] [] 0 /\
  step contribute_first (construct 0 draw_60) = Raised (mkSim 0 [] [] 1).
Proof.
  split; [lia |]. apply nonpositive_agent_count_accepted. lia.
Defined.

(** Claim C5 fails: [AgentSimulation(0)] and [reset(-2)] both produce a
    simulation with an empty agent store instead of rejecting the count. *)
Lemma nonpositive_agent_count_not_rejected :
  agents (construct 0 draw_60_80) = [] /\
  agents (reset (Some (-2)%Z) draw_60_80 (construct 3 draw_60_80)) = [].
Proof. split; reflexivity. Qed.

(** Claim C6 (as the code has it): after [n] steps that return, starting
    from a fresh or reset simulation, [action_history] has length [n] and
    [step_count = n]; the [i]-th record is the [(agent, action, change)] of
    the [(i+1)]-th step, whose returned dict carries ['step'] = [i+1]. *)
Theorem steps_history_in_order (sim : Sim) (cs : list Choice) (rs : list StepInfo)
  (sim' : Sim) (Hh : action_history sim = []) (Hc : step_count sim = 0%nat)
  (Hrun : run_steps cs sim = Some (rs, sim')) :
  length (action_history sim') = length cs /\
  step_count sim' = length cs /\
  (forall i r, nth_error rs i = Some r ->
     si_step r = S i /\
     nth_error (action_history sim') i = Some (si_agent r, si_action r, si_change r)).
Proof.
  destruct (run_steps_shape _ _ _ _ Hrun) as (Hl & Hh' & Hc' & Hi).
  rewrite Hh in Hh'. simpl in Hh'. rewrite Hc in Hc', Hi. simpl in Hc', Hi.
  rewrite Hh', length_map. split; [exact Hl |]. split; [exact Hc' |].
  intros i r Hr. split; [now apply Hi |].
  rewrite nth_error_map, Hr. reflexivity.
Qed.

Lemma steps_history_in_order_witness :
  exists rs sim',
    run_steps [contribute_first; trade_first_10] (construct 2 draw_60_80) = Some (rs, sim') /\
    length (action_history sim') = 2%nat /\ step_count sim' = 2%nat /\
    (forall i r, nth_error rs i = Some r ->
       si_step r = S i /\
       nth_error (action_history sim') i = Some (si_agent r, si_action r, si_change r)).
Proof.
  destruct (run_steps [contribute_first; trade_first_10] (construct 2 draw_60_80))
    as [[rs sim'] |] eqn:E.
  - exists rs, sim'. split; [reflexivity |].
    apply (steps_history_in_order (construct 2 draw_60_80) _ _ _ eq_refl eq_refl E).
  - vm_compute in E. discriminate.
Defined.

(** Claim C6 fails: history records are [(agent, action, change)] triples with
    no step index.  Two trades of the single agent of [AgentSimulation(1)]
    leave two equal records, so no function of a record yields 1 for the first
    and 2 for the second. *)
Lemma history_records_carry_no_step_index :
  exists rs sim',
    run_steps [trade_first_10; trade_first_10] (construct 1 draw_60) = Some (rs, sim') /\
    ~ (exists f : HistEntry -> nat,
         forall i e, nth_error (action_history sim') i = Some e -> f e = S i).
Proof.
  do 2 eexists. split; [vm_compute; reflexivity |].
  intros (f & Hf). simpl in Hf.
  pose proof (Hf 0%nat _ eq_refl) as H1. pose proof (Hf 1%nat _ eq_refl) as H2.
  simpl in H1, H2. rewrite H1 in H2. discriminate.
Qed.

(** Claim C8: with exactly one agent, a step that draws [trade] returns
    without raising, leaves every reputation unchanged and still appends a
    record, whose change is zero. *)
Theorem single_agent_trade_is_noop (sim : Sim) (c : Choice) (name : string) (old : Q)
  (Hone : agents sim = [(name, old)]) (Htrade : ch_action c = Trade) :
  exists r sim',
    step c sim = Returned r sim' /\
    agents sim' = agents sim /\
    action_history sim' = (action_history sim ++ [(name, Trade, si_change r)])%list /\
    si_change r == 0.
Proof.
  unfold step, apply_action. rewrite Hone, Htrade. unfold keys, py_choice.
  cbn [map fst length]. rewrite Nat.mod_1_r. simpl. rewrite !String.eqb_refl. simpl.
  rewrite ?String.eqb_refl.
  do 2 eexists. split; [reflexivity |]. simpl.
  split; [reflexivity |]. split; [reflexivity |]. ring.
Qed.

Lemma single_agent_trade_is_noop_witness :
  agents (construct 1 draw_60) = [("Agent_0", 60)] /\
  exists r sim',
    step trade_first_10 (construct 1 draw_60) = Returned r sim' /\
    agents sim' = agents (construct 1 draw_60) /\
    action_history sim' = (action_history (construct 1 draw_60) ++ [("Agent_0", Trade, si_change r)])%list /\
    si_change r == 0.
Proof.
  split; [vm_compute; reflexivity |].
  apply (single_agent_trade_is_noop _ _ "Agent_0" 60); [vm_compute; reflexivity | reflexivity].
Defined.

(** Claim C9: [get_reputation_distribution] counts each agent in exactly one
    tier, high for [r >= 100], medium for [50 <= r < 100], low for [r < 50],
    and the three counts sum to the number of agents. *)
Theorem distribution_partitions_agents (s : Store) :
  high (get_reputation_distribution s) = count_tier is_high s /\
  medium (get_reputation_distribution s) = count_tier is_medium s /\
  low (get_reputation_distribution s) = count_tier is_low s /\
  (high (get_reputation_distribution s) + medium (get_reputation_distribution s)
   + low (get_reputation_distribution s) = length s)%nat.
Proof.
  unfold get_reputation_distribution, count_tier.
  rewrite fold_classify_total, fold_classify. simpl.
  unfold values. rewrite length_map. auto.
Qed.

End Claims.

Module Extras.
Import AgentSim AgentSimFacts.
Open Scope Q_scope.

(** ** Keys of the store *)

Lemma keys_assign_present (k : string) (v w : Q) (m : Store) :
  lookup k m = Some v -> keys (assign k w m) = keys m.
Proof.
  induction m as [| [j u] t IH]; simpl; [discriminate |].
  destruct (String.eqb k j) eqn:E; intros H; unfold keys in *; simpl.
  - apply String.eqb_eq in E. now subst.
  - f_equal. now apply IH.
Qed.

Lemma keys_update (a : string) (d : Q) (s : Store) :
  keys (snd (update_reputation a d s)) = keys s.
Proof.
  unfold update_reputation. destruct (lookup a s) eqn:E; simpl; [| reflexivity].
  now apply (keys_assign_present _ q).
Qed.

Lemma keys_transfer (a b : string) (amt : Q) (s : Store) :
  keys (snd (transfer_reputation a b amt s)) = keys s.
Proof.
  unfold transfer_reputation.
  destruct (mem a s && mem b s); [| reflexivity].
  destruct (lookup a s) as [ra |] eqn:Ea; [| reflexivity].
  destruct (Qle_bool amt ra); [| reflexivity].
  destruct (lookup b (assign a (ra - amt) s)) as [rb |] eqn:Eb; [| reflexivity].
  simpl. rewrite (keys_assign_present _ _ _ _ Eb).
  now apply (keys_assign_present _ ra).
Qed.

Lemma keys_apply_action (c : Choice) (name : string) (st : Store) :
  keys (apply_action c name st) = keys st.
Proof.
  unfold apply_action, action_contribute, action_share, action_idle, action_transfer.
  destruct (ch_action c); try apply keys_update.
  destruct (filter _ _); [reflexivity |].
  destruct (py_choice _ _); [apply keys_transfer | reflexivity].
Qed.

Lemma lookup_in_keys (k : string) (m : Store) :
  In k (keys m) -> exists v, lookup k m = Some v.
Proof.
  induction m as [| [j u] t IH]; simpl; [contradiction |].
  intros [-> | H].
  - rewrite String.eqb_refl. eauto.
  - destruct (String.eqb k j); eauto.
Qed.

Lemma py_choice_in {A : Type} (i : nat) (l : list A) (x : A) :
  py_choice i l = Some x -> In x l.
Proof.
  unfold py_choice. destruct l as [| y l]; [discriminate |].
  intros H. eapply nth_error_In. exact H.
Qed.

Lemma py_choice_nonempty {A : Type} (i : nat) (l : list A) :
  l <> [] -> exists x, py_choice i l = Some x.
Proof.
  intros Hl. unfold py_choice. destruct l as [| y l']; [congruence |].
  destruct (nth_error (y :: l') (i mod length (y :: l'))) eqn:E; [eauto |].
  apply nth_error_None in E.
  pose proof (Nat.mod_upper_bound i (length (y :: l'))) as Hb. simpl in *. lia.
Qed.

Lemma step_keys (c : Choice) (sim : Sim) :
  match step c sim with
  | Raised sim' => keys (agents sim') = keys (agents sim)
  | Returned _ sim' => keys (agents sim') = keys (agents sim)
  end.
Proof.
  unfold step.
  destruct (py_choice (ch_agent c) (keys (agents sim))) as [name |]; [| reflexivity].
  destruct (lookup name (agents sim)) as [old |]; [| reflexivity].
  destruct (lookup name (apply_action c name (agents sim))); apply keys_apply_action.
Qed.

(** ** Non-negative stores *)












(** ** Steps on a non-empty store *)

Lemma step_returns_nonempty (c : Choice) (sim : Sim) :
  agents sim <> [] -> exists r sim', step c sim = Returned r sim'.
Proof.
  intros Hne. unfold step.
  assert (Hk : keys (agents sim) <> []).
  { unfold keys. destruct (agents sim); [congruence | discriminate]. }
  destruct (py_choice_nonempty (ch_agent c) _ Hk) as [name Hname].
  rewrite Hname. apply py_choice_in in Hname.
  destruct (lookup_in_keys _ _ Hname) as [old Hold]. rewrite Hold.
  assert (Hin : In name (keys (apply_action c name (agents sim))))
    by now rewrite keys_apply_action.
  destruct (lookup_in_keys _ _ Hin) as [nw Hnw]. rewrite Hnw. eauto.
Qed.

(** X1: a rule run through the dispatcher never adds, removes or reorders
    agents: the key list of the store is unchanged, whatever the command and
    whether or not its agents exist. *)
Theorem run_preserves_agent_keys (cmd : Command) (s : Store) :
  keys (snd (run cmd s)) = keys s.
Proof.
  destruct cmd; simpl; try apply keys_update.
  unfold action_transfer.
  destruct (transfer_reputation from_agent to_agent amount s) as [r s'] eqn:E.
  simpl. change s' with (snd (r, s')). rewrite <- E. apply keys_transfer.
Qed.

(** X2: [step()] never adds, removes or reorders agents, whether it returns
    or raises. *)
Theorem step_preserves_agent_keys (c : Choice) (sim : Sim) :
  match step c sim with
  | Raised sim' => keys (agents sim') = keys (agents sim)
  | Returned _ sim' => keys (agents sim') = keys (agents sim)
  end.
Proof. apply step_keys. Qed.

(** X3: [step()] never raises on a simulation with at least one agent,
    whatever the random draws. *)
Theorem step_never_raises_with_agents (c : Choice) (sim : Sim)
  (Hne : agents sim <> []) :
  exists r sim', step c sim = Returned r sim'.
Proof. now apply step_returns_nonempty. Qed.

Lemma step_never_raises_with_agents_witness :
  agents (construct 1 draw_60) <> [] /\
  exists r sim', step trade_first_10 (construct 1 draw_60) = Returned r sim'.
Proof.
  split; [vm_compute; discriminate |].
  apply step_never_raises_with_agents. vm_compute. discriminate.
Defined.






(** ** Agent names and construction *)

Lemma to_uint_not_nil (n : nat) : Nat.to_uint n <> Decimal.Nil.
Proof.
  intros H. pose proof (DecimalNat.Unsigned.of_to n) as E. rewrite H in E.
  simpl in E. subst n. discriminate H.
Qed.

Definition nat_of_digits (s : string) : nat :=
  match NilZero.uint_of_string s with Some d => Nat.of_uint d | None => O end.

Lemma nat_of_digits_string (n : nat) :
  nat_of_digits (NilZero.string_of_uint (Nat.to_uint n)) = n.
Proof.
  unfold nat_of_digits. rewrite NilZero.usu by apply to_uint_not_nil.
  apply DecimalNat.Unsigned.of_to.
Qed.

Lemma append_cancel_l (p a b : string) : (p ++ a)%string = (p ++ b)%string -> a = b.
Proof. induction p as [| c p IH]; simpl; [auto |]. intros H. injection H. auto. Qed.

Lemma agent_name_inj (i j : nat) : agent_name i = agent_name j -> i = j.
Proof.
  unfold agent_name. intros H. apply append_cancel_l in H.
  rewrite <- (nat_of_digits_string i), <- (nat_of_digits_string j). now rewrite H.
Qed.

Lemma lookup_not_in_keys (k : string) (m : Store) :
  ~ In k (keys m) -> lookup k m = None.
Proof.
  induction m as [| [j u] t IH]; simpl; [reflexivity |].
  intros Hn. destruct (String.eqb_spec k j) as [-> | Hne]; [tauto |].
  apply IH. tauto.
Qed.

Lemma assign_absent (k : string) (v : Q) (m : Store) :
  lookup k m = None -> assign k v m = m ++ [(k, v)].
Proof.
  induction m as [| [j u] t IH]; simpl; [reflexivity |].
  destruct (String.eqb k j); [discriminate |]. intros H. now rewrite IH.
Qed.

Lemma init_from_layout (k i : nat) (draw : nat -> Q) (s : Store) :
  keys s = map agent_name (seq 0 i) ->
  init_from k i draw s = s ++ map (fun j => (agent_name j, draw j)) (seq i k).
Proof.
  revert i s. induction k as [| k IH]; intros i s Hk; simpl.
  - now rewrite app_nil_r.
  - assert (Hn : lookup (agent_name i) s = None).
    { apply lookup_not_in_keys. rewrite Hk. intros Hin.
      apply in_map_iff in Hin as (j & Hj & Hin). apply agent_name_inj in Hj.
      apply in_seq in Hin. lia. }
    rewrite (assign_absent _ _ _ Hn), IH.
    + now rewrite <- app_assoc.
    + unfold keys in *. rewrite map_app, Hk, seq_S, map_app. reflexivity.
Qed.

Lemma initialize_agents_layout (n : Z) (draw : nat -> Q) :
  initialize_agents n draw [] = map (fun i => (agent_name i, draw i)) (seq 0 (Z.to_nat n)).
Proof. unfold initialize_agents. now rewrite init_from_layout. Qed.

Lemma names_nodup (l : list nat) : NoDup l -> NoDup (map agent_name l).
Proof.
  induction 1 as [| x l Hx Hl IH]; simpl; constructor; [| exact IH].
  intros Hin. apply in_map_iff in Hin as (y & Hy & Hin).
  apply agent_name_inj in Hy. subst. contradiction.
Qed.

(** X6: the constructor and [reset(k)] create exactly [max(k, 0)] agents,
    [Agent_0], ..., [Agent_{k-1}] in this order, the [i]-th with the [i]-th
    draw of [random.uniform(50, 100)]; [reset()] keeps the previous count.
    The names are pairwise distinct. *)
Theorem construct_and_reset_layout (n : Z) (draw : nat -> Q) (sim : Sim) :
  agents (construct n draw) = map (fun i => (agent_name i, draw i)) (seq 0 (Z.to_nat n)) /\
  agents (reset (Some n) draw sim) = map (fun i => (agent_name i, draw i)) (seq 0 (Z.to_nat n)) /\
  agents (reset None draw sim) =
    map (fun i => (agent_name i, draw i)) (seq 0 (Z.to_nat (num_agents sim))) /\
  NoDup (keys (agents (construct n draw))).
Proof.
  simpl. rewrite !initialize_agents_layout. split; [reflexivity |].
  split; [reflexivity |]. split; [reflexivity |].
  unfold keys. rewrite map_map. simpl.
  apply names_nodup, seq_NoDup.
Qed.

Open Scope string_scope.

(** ** What a step touches *)

Lemma lookup_update_other (a k : string) (d : Q) (s : Store) :
  k <> a -> lookup k (snd (update_reputation a d s)) = lookup k s.
Proof.
  intros Hk. unfold update_reputation. destruct (lookup a s); simpl; [| reflexivity].
  apply lookup_assign_other. congruence.
Qed.

Lemma lookup_transfer_other (a b k : string) (amt : Q) (s : Store) :
  k <> a -> k <> b -> lookup k (snd (transfer_reputation a b amt s)) = lookup k s.
Proof.
  intros Ha Hb. unfold transfer_reputation.
  destruct (mem a s && mem b s); [| reflexivity].
  destruct (lookup a s) as [ra |]; [| reflexivity].
  destruct (Qle_bool amt ra); [| reflexivity].
  destruct (lookup b (assign a (ra - amt) s)); simpl; [| reflexivity].
  rewrite !lookup_assign_other by congruence. reflexivity.
Qed.

Lemma string_cons_neq (c : Ascii.ascii) (s : string) : String c s <> s.
Proof. intros H. apply (f_equal String.length) in H. simpl in H. lia. Qed.

(** X7: a step changes the reputation of no agent other than the acting one
    and, for a trade, one partner distinct from it; a [contribute], [share]
    or [idle] step changes only the acting agent. *)
Theorem step_frame (c : Choice) (sim sim' : Sim) (r : StepInfo)
  (Hs : step c sim = Returned r sim') :
  (ch_action c <> Trade ->
   forall k, k <> si_agent r -> lookup k (agents sim') = lookup k (agents sim)) /\
  (exists p, p <> si_agent r /\
   forall k, k <> si_agent r -> k <> p -> lookup k (agents sim') = lookup k (agents sim)).
Proof.
  unfold step in Hs.
  destruct (py_choice (ch_agent c) (keys (agents sim))) as [name |]; [| discriminate].
  destruct (lookup name (agents sim)) as [old |]; [| discriminate].
  destruct (lookup name (apply_action c name (agents sim))) as [nw |]; [| discriminate].
  injection Hs as <- <-. simpl.
  unfold apply_action, action_contribute, action_share, action_idle, action_transfer.
  destruct (ch_action c) eqn:Ea.
  1, 2, 4:
    split; [intros _ k Hk; now apply lookup_update_other |];
    exists (String (Ascii.ascii_of_nat 35) name); split; [apply string_cons_neq |];
    intros k Hk _; now apply lookup_update_other.
  split; [congruence |].
  destruct (filter (fun a => negb (String.eqb a name)) (keys (agents sim))) as [| q qs] eqn:Ef.
  - exists (String (Ascii.ascii_of_nat 35) name). split; [apply string_cons_neq | reflexivity].
  - destruct (py_choice (ch_partner c) (q :: qs)) as [partner |] eqn:Ep.
    + exists partner. split.
      * apply py_choice_in in Ep. rewrite <- Ef in Ep.
        apply filter_In in Ep as [_ Hp]. apply negb_true_iff in Hp.
        intros E. subst. rewrite String.eqb_refl in Hp. discriminate.
      * intros k Hk Hp. now apply lookup_transfer_other.
    + exists (String (Ascii.ascii_of_nat 35) name). split; [apply string_cons_neq | reflexivity].
Qed.

Lemma step_frame_witness :
  step contribute_first (construct 2 draw_60_80) =
    Returned (mkStepInfo 1 "Agent_0" Contribute 60 75 (75 - 60)
                (fold_left Qplus [75; 80] 0 / inject_Z 2))
             (mkSim 2 [("Agent_0", 75); ("Agent_1", 80)] [("Agent_0", Contribute, 75 - 60)] 1) /\
  (ch_action contribute_first <> Trade ->
   forall k, k <> "Agent_0" ->
   lookup k [("Agent_0", 75); ("Agent_1", 80)] = lookup k (agents (construct 2 draw_60_80))) /\
  (exists p, p <> "Agent_0" /\
   forall k, k <> "Agent_0" -> k <> p ->
   lookup k [("Agent_0", 75); ("Agent_1", 80)] = lookup k (agents (construct 2 draw_60_80))).
Proof.
  assert (H : step contribute_first (construct 2 draw_60_80) =
    Returned (mkStepInfo 1 "Agent_0" Contribute 60 75 (75 - 60)
                (fold_left Qplus [75; 80] 0 / inject_Z 2))
             (mkSim 2 [("Agent_0", 75); ("Agent_1", 80)] [("Agent_0", Contribute, 75 - 60)] 1))
    by (vm_compute; reflexivity).
  split; [exact H |]. exact (step_frame _ _ _ _ H).
Defined.

(** ** Health score *)

Fixpoint qsum (l : list Q) : Q :=
  match l with [] => 0 | x :: t => x + qsum t end.

Definition nQ (n : nat) : Q := inject_Z (Z.of_nat n).

Lemma nQ_S (n : nat) : nQ (S n) == nQ n + 1.
Proof. unfold nQ. rewrite Nat2Z.inj_succ, <- Z.add_1_r, inject_Z_plus. reflexivity. Qed.

Lemma fold_left_Qplus (l : list Q) (a : Q) : fold_left Qplus l a == a + qsum l.
Proof.
  revert a. induction l as [| x l IH]; intros a; simpl; [ring |].
  rewrite IH. ring.
Qed.

Lemma qsum_bounds (l : list Q) (lo hi : Q) :
  (forall v, In v l -> lo <= v <= hi) ->
  nQ (length l) * lo <= qsum l <= nQ (length l) * hi.
Proof.
  induction l as [| x l IH]; intros Hb; simpl.
  - unfold nQ. simpl. split; rewrite Qmult_0_l; apply Qle_refl.
  - destruct (Hb x (or_introl eq_refl)) as [Hx1 Hx2].
    destruct IH as [H1 H2]; [intros v Hv; apply Hb; now right |].
    rewrite nQ_S. split.
    + setoid_replace ((nQ (length l) + 1) * lo) with (lo + nQ (length l) * lo) by ring.
      apply Qplus_le_compat; assumption.
    + setoid_replace ((nQ (length l) + 1) * hi) with (hi + nQ (length l) * hi) by ring.
      apply Qplus_le_compat; assumption.
Qed.

(** X8: on a non-empty store whose reputations all lie in [lo, hi], the
    health score (the mean reputation) also lies in [lo, hi]. *)
Theorem health_score_within_bounds (s : Store) (lo hi : Q) (Hne : s <> [])
  (Hb : forall k v, In (k, v) s -> lo <= v <= hi) :
  lo <= get_health_score s <= hi.
Proof.
  assert (Hv : forall v, In v (values s) -> lo <= v <= hi).
  { intros v Hin. unfold values in Hin. apply in_map_iff in Hin as ([k v'] & <- & Hin).
    exact (Hb _ _ Hin). }
  pose proof (qsum_bounds _ _ _ Hv) as [H1 H2].
  unfold values in H1, H2. rewrite length_map in H1, H2.
  assert (Hpos : 0 < inject_Z (Z.of_nat (length s))).
  { destruct s; [congruence |]. simpl. unfold Qlt. simpl. lia. }
  assert (Hh : get_health_score s =
               fold_left Qplus (values s) 0 / inject_Z (Z.of_nat (length s)))
    by (destruct s; [congruence | reflexivity]).
  rewrite Hh.
  split.
  - apply Qle_shift_div_l; [exact Hpos |].
    rewrite fold_left_Qplus, Qplus_0_l, Qmult_comm. exact H1.
  - apply Qle_shift_div_r; [exact Hpos |].
    rewrite fold_left_Qplus, Qplus_0_l, Qmult_comm. exact H2.
Qed.

Lemma health_score_within_bounds_witness :
  [("Agent_0", 60); ("Agent_1", 80)] <> [] /\
  60 <= get_health_score [("Agent_0", 60); ("Agent_1", 80)] <= 80.
Proof.
  split; [discriminate |]. apply health_score_within_bounds; [discriminate |].
  intros k v [H | [H | []]]; injection H as _ <-; split; vm_compute; discriminate.
Defined.

(** ** Reputation colours and status labels *)

Import Dashboard.

Lemma clamp01_lt (x t : Q) : 0 < t -> t <= 1 -> (py_max 0 (py_min 1 x) < t <-> x < t).
Proof.
  intros Ht0 Ht1. unfold py_max, py_min.
  destruct (Qltb x 1) eqn:E1.
  - destruct (Qltb 0 x) eqn:E2; [reflexivity |].
    apply Qltb_false_le in E2. split; intros _; [apply Qle_lt_trans with 0 |]; assumption.
  - apply Qltb_false_le in E1. rewrite (Qltb_true 0 1) by reflexivity.
    split; intros H; exfalso.
    + apply (Qlt_not_le _ _ H Ht1).
    + apply (Qlt_not_le _ _ H). apply Qle_trans with 1; assumption.
Qed.

Lemma div200_lt (r t : Q) : r / 200 < t <-> r < t * 200.
Proof.
  split; intros H.
  - apply (proj2 (Qmult_lt_r _ _ 200 eq_refl)) in H.
    setoid_replace (r / 200 * 200) with r in H by (field; discriminate). exact H.
  - apply Qlt_shift_div_r; [reflexivity | exact H].
Qed.

Lemma color_threshold (r t b : Q) :
  0 < t -> t <= 1 -> t * 200 == b ->
  Qltb (py_max 0 (py_min 1 (r / 200))) t = Qltb r b.
Proof.
  intros H0 H1 Hb.
  destruct (Qltb r b) eqn:E.
  - apply Qltb_iff in E. apply Qltb_iff, clamp01_lt, div200_lt; [assumption .. |].
    now rewrite Hb.
  - apply Qltb_false_le in E. destruct (Qltb _ t) eqn:E'; [| reflexivity].
    apply Qltb_iff, clamp01_lt, div200_lt in E'; [| assumption ..].
    rewrite Hb in E'. exfalso. exact (Qlt_not_le _ _ E' E).
Qed.

Lemma color_code (r : Q) :
  get_reputation_color r =
  if Qltb r 50 then "#E74C3C"
  else if Qltb r 100 then "#E67E22"
  else if Qltb r 150 then "#F39C12"
  else "#27AE60".
Proof.
  unfold get_reputation_color.
  rewrite (color_threshold r (1 # 4) 50), (color_threshold r (1 # 2) 100),
    (color_threshold r (3 # 4) 150);
    first [reflexivity | vm_compute; intros Hc; discriminate].
Qed.

Lemma Qle_bool_Qltb (x y : Q) : Qle_bool x y = negb (Qltb y x).
Proof. unfold Qltb. now rewrite negb_involutive. Qed.

Ltac band_cases r :=
  destruct (Qltb r 50) eqn:?; destruct (Qltb r 100) eqn:?; destruct (Qltb r 150) eqn:?;
  rewrite ?Qltb_iff in *;
  repeat match goal with H : Qltb _ _ = false |- _ => apply Qltb_false_le in H end.

Lemma color_bands (r : Q) :
  (r < 50 -> get_reputation_color r = "#E74C3C") /\
  (50 <= r -> r < 100 -> get_reputation_color r = "#E67E22") /\
  (100 <= r -> r < 150 -> get_reputation_color r = "#F39C12") /\
  (150 <= r -> get_reputation_color r = "#27AE60").
Proof.
  rewrite color_code.
  repeat split; intros; band_cases r; try reflexivity; exfalso;
    match goal with
    | H : ?x < ?y, H' : ?y <= ?x |- _ => exact (Qlt_not_le _ _ H H')
    | H : r < ?y, H' : ?z <= r |- _ =>
        apply (Qlt_not_le _ _ (Qlt_le_trans _ _ _ H (Qle_trans _ _ _ (Qle_refl _) H'))) ; fail
    | _ => idtac
    end;
    repeat match goal with
    | H : r < ?a, H' : ?b <= r |- _ =>
        apply (Qlt_not_le r a H); apply Qle_trans with b; [vm_compute; discriminate | exact H']
    end.
Qed.

(** X9: [_get_reputation_color] colours a reputation red below 50, orange
    in [50, 100), yellow in [100, 150) and green from 150 on (values above
    200 stay green, values below 0 stay red). *)
Theorem reputation_color_bands (r : Q) :
  (r < 50 -> get_reputation_color r = "#E74C3C") /\
  (50 <= r -> r < 100 -> get_reputation_color r = "#E67E22") /\
  (100 <= r -> r < 150 -> get_reputation_color r = "#F39C12") /\
  (150 <= r -> get_reputation_color r = "#27AE60").
Proof. apply color_bands. Qed.

Ltac band_absurd r :=
  match goal with
  | H : r < ?a, H' : ?b <= r |- _ =>
      exfalso; apply (Qlt_not_le r a H); apply Qle_trans with b;
      [vm_compute; intros Hc; discriminate | exact H']
  end.

Lemma status_color_tier (r : Q) :
  (get_status_emoji r = "🟢 Excellent" <-> get_reputation_color r = "#27AE60") /\
  (get_status_emoji r = "🟡 Good" <-> get_reputation_color r = "#F39C12") /\
  (get_status_emoji r = "🟠 Average" <-> get_reputation_color r = "#E67E22") /\
  (get_status_emoji r = "🔴 Low" <-> get_reputation_color r = "#E74C3C") /\
  (get_status_emoji r = "🟠 Average" <-> classify (mkDist 0 0 0) r = mkDist 0 1 0) /\
  (get_status_emoji r = "🔴 Low" <-> classify (mkDist 0 0 0) r = mkDist 0 0 1).
Proof.
  rewrite color_code. unfold get_status_emoji, classify. rewrite !Qle_bool_Qltb.
  band_cases r; simpl;
    repeat split; intros Hx; first [reflexivity | discriminate Hx | band_absurd r].
Qed.

(** X10: the dashboard's status label ([get_status_emoji]), the node colour
    ([_get_reputation_color]) and the engine's distribution tier agree for
    every reputation: Excellent is green, Good yellow, Average orange and Low
    red; Average is exactly the medium tier and Low exactly the low tier. *)
Theorem status_label_color_and_tier_agree (r : Q) :
  (get_status_emoji r = "🟢 Excellent" <-> get_reputation_color r = "#27AE60") /\
  (get_status_emoji r = "🟡 Good" <-> get_reputation_color r = "#F39C12") /\
  (get_status_emoji r = "🟠 Average" <-> get_reputation_color r = "#E67E22") /\
  (get_status_emoji r = "🔴 Low" <-> get_reputation_color r = "#E74C3C") /\
  (get_status_emoji r = "🟠 Average" <-> classify (mkDist 0 0 0) r = mkDist 0 1 0) /\
  (get_status_emoji r = "🔴 Low" <-> classify (mkDist 0 0 0) r = mkDist 0 0 1).
Proof. apply status_color_tier. Qed.

(** ** The dashboard's run loop *)

Lemma step_returned_info (c : Choice) (sim sim' : Sim) (r : StepInfo) :
  step c sim = Returned r sim' ->
  si_step r = S (step_count sim) /\ step_count sim' = S (step_count sim) /\
  si_health r = get_health_score (agents sim').
Proof.
  unfold step.
  destruct (py_choice (ch_agent c) (keys (agents sim))) as [name |]; [| discriminate].
  destruct (lookup name (agents sim)) as [old |]; [| discriminate].
  destruct (lookup name (apply_action c name (agents sim))) as [nw |]; [| discriminate].
  intros H. injection H as <- <-. simpl. auto.
Qed.

Definition replay_inv (j : nat) (sim : Sim) (ss : Session) : Prop :=
  length (ss_history ss) = j /\ length (ss_health_score_history ss) = j /\
  length (ss_agent_states_history ss) = j /\ ss_current_view_step ss = j /\
  step_count sim = j /\
  (forall i info st, nth_error (ss_history ss) i = Some info ->
     nth_error (ss_agent_states_history ss) i = Some st ->
     si_step info = S i /\
     nth_error (ss_health_score_history ss) i = Some (si_health info) /\
     si_health info = get_health_score st).

Lemma nth_error_snoc {A : Type} (l : list A) (x : A) (i : nat) :
  nth_error (l ++ [x])%list i =
  if Nat.ltb i (length l) then nth_error l i
  else if Nat.eqb i (length l) then Some x else None.
Proof.
  destruct (Nat.ltb_spec i (length l)) as [H | H].
  - now apply nth_error_app1.
  - rewrite nth_error_app2 by exact H.
    destruct (Nat.eqb_spec i (length l)) as [-> | Hne].
    + now rewrite Nat.sub_diag.
    + destruct (i - length l)%nat eqn:E; [lia | now destruct n].
Qed.

Lemma run_loop_inv (choices : nat -> Choice) (m j : nat) (sim sim' : Sim) (ss ss' : Session) :
  run_loop (seq j m) choices sim ss = Some (sim', ss') ->
  replay_inv j sim ss ->
  ss_stop_flag ss' = ss_stop_flag ss /\
  (ss_stop_flag ss = false -> replay_inv (j + m)%nat sim' ss') /\
  (ss_stop_flag ss = true -> replay_inv j sim' ss').
Proof.
  revert j sim ss. induction m as [| m IH]; intros j sim ss Hrun Hinv; simpl in Hrun.
  - injection Hrun as <- <-. rewrite Nat.add_0_r. auto.
  - destruct (ss_stop_flag ss) eqn:Hf.
    + injection Hrun as <- <-. simpl. split; [reflexivity |]. split; [discriminate |].
      intros _. exact Hinv.
    + destruct (step (choices j) sim) as [s1 | info sim1] eqn:Hs; [discriminate |].
      destruct (step_returned_info _ _ _ _ Hs) as (Hstep & Hcount & Hhealth).
      destruct Hinv as (Hl1 & Hl2 & Hl3 & Hv & Hc & Hpt).
      edestruct IH as (Hf' & Hfalse & _); [exact Hrun | |].
      * unfold replay_inv. simpl. rewrite !length_app, Hl1, Hl2, Hl3. simpl.
        do 5 (split; [lia |]).
        intros i info' st Hi Hst.
        rewrite (nth_error_snoc (ss_history ss)) in Hi.
        rewrite (nth_error_snoc (ss_agent_states_history ss)) in Hst.
        rewrite (nth_error_snoc (ss_health_score_history ss)).
        rewrite Hl1 in Hi. rewrite Hl3 in Hst. rewrite Hl2.
        destruct (Nat.ltb_spec i j) as [Hlt | Hge].
        -- exact (Hpt _ _ _ Hi Hst).
        -- destruct (Nat.eqb_spec i j) as [-> | Hne]; [| discriminate].
           injection Hi as <-. injection Hst as <-. rewrite Hstep, Hc. auto.
      * simpl in Hf'. split; [exact Hf' |]. split; [| discriminate].
        intros _. rewrite <- Nat.add_succ_comm. apply Hfalse. reflexivity.
Qed.

(** X11: when [run_simulation] returns, the three replay lists
    ([history], [health_score_history], [agent_states_history]) have the same
    length [k], [current_view_step] is [k] (one past the last replay index)
    and [is_running] is false; [k] is [num_steps] unless the stop flag was
    already set, in which case no step runs.  The [i]-th entries belong to
    the same step: its record has ['step'] = [i + 1], and its health score is
    the health score of the stored agent states. *)
Theorem run_simulation_replay_consistent (num_agents num_steps : Z) (draw : nat -> Q)
  (choices : nat -> Choice) (ss ss' : Session)
  (Hrun : run_simulation num_agents num_steps draw choices ss = Some ss') :
  length (ss_health_score_history ss') = length (ss_history ss') /\
  length (ss_agent_states_history ss') = length (ss_history ss') /\
  ss_current_view_step ss' = length (ss_history ss') /\
  ss_is_running ss' = false /\
  (ss_stop_flag ss = false -> length (ss_history ss') = Z.to_nat num_steps) /\
  (ss_stop_flag ss = true -> length (ss_history ss') = 0%nat) /\
  (forall i info st, nth_error (ss_history ss') i = Some info ->
     nth_error (ss_agent_states_history ss') i = Some st ->
     si_step info = S i /\
     nth_error (ss_health_score_history ss') i = Some (si_health info) /\
     si_health info = get_health_score st).
Proof.
  unfold run_simulation in Hrun.
  set (sim0 := match ss_simulation ss with
               | None => construct num_agents draw
               | Some sim => reset (Some num_agents) draw sim
               end) in Hrun.
  destruct (run_loop _ choices sim0 _) as [[sim' ss2] |] eqn:E; [| discriminate].
  injection Hrun as <-.
  assert (H0 : replay_inv 0 sim0 (mkSession (Some sim0) true (ss_stop_flag ss) [] [] [] 0)).
  { unfold replay_inv. simpl. do 4 (split; [reflexivity |]). split.
    - unfold sim0. destruct (ss_simulation ss); reflexivity.
    - intros i info st Hi. rewrite nth_error_nil in Hi. discriminate. }
  destruct (run_loop_inv _ _ _ _ _ _ _ E H0) as (_ & Hfalse & Htrue). simpl in Hfalse, Htrue.
  destruct (ss_stop_flag ss) eqn:Hf.
  - destruct (Htrue eq_refl) as (Hl1 & Hl2 & Hl3 & Hv & _ & Hpt). simpl.
    rewrite Hl1, Hl2, Hl3, Hv.
    refine (conj eq_refl (conj eq_refl (conj eq_refl (conj eq_refl (conj _ (conj _ Hpt)))))).
    + discriminate.
    + reflexivity.
  - destruct (Hfalse eq_refl) as (Hl1 & Hl2 & Hl3 & Hv & _ & Hpt). simpl.
    rewrite Hl1, Hl2, Hl3, Hv.
    refine (conj eq_refl (conj eq_refl (conj eq_refl (conj eq_refl (conj _ (conj _ Hpt)))))).
    + reflexivity.
    + discriminate.
Qed.

Definition fresh_session : Session := mkSession None false false [] [] [] 0.

Lemma run_simulation_replay_consistent_witness :
  exists ss',
    run_simulation 3 2 draw_60_80 (fun _ => contribute_first) fresh_session = Some ss' /\
    length (ss_health_score_history ss') = length (ss_history ss') /\
    length (ss_agent_states_history ss') = length (ss_history ss') /\
    ss_current_view_step ss' = length (ss_history ss') /\
    ss_is_running ss' = false /\
    (ss_stop_flag fresh_session = false -> length (ss_history ss') = Z.to_nat 2) /\
    (ss_stop_flag fresh_session = true -> length (ss_history ss') = 0%nat) /\
    (forall i info st, nth_error (ss_history ss') i = Some info ->
       nth_error (ss_agent_states_history ss') i = Some st ->
       si_step info = S i /\
       nth_error (ss_health_score_history ss') i = Some (si_health info) /\
       si_health info = get_health_score st).
Proof.
  destruct (run_simulation 3 2 draw_60_80 (fun _ => contribute_first) fresh_session)
    as [ss' |] eqn:E.
  - exists ss'. split; [reflexivity |]. exact (run_simulation_replay_consistent _ _ _ _ _ _ E).
  - vm_compute in E. discriminate.
Defined.

End Extras.

Module RuntimeExtras.
Import AgentSim MeTTaText.
Open Scope nat_scope.
Local Set Warnings "-abstract-large-number".

(** ** Parsing of the command text *)

Definition nospace (w : text) : bool := forallb (fun c => negb (py_isspace c)) w.

Lemma split_word (w rest cur : text) :
  nospace w = true -> split_aux (w ++ rest) cur = split_aux rest (rev w ++ cur).
Proof.
  revert cur. induction w as [| c w IH]; intros cur Hw; simpl in *; [reflexivity |].
  apply andb_prop in Hw as [Hc Hw]. destruct (py_isspace c); [discriminate |].
  rewrite IH by exact Hw. now rewrite <- app_assoc.
Qed.

(** [' '.join(words)] *)
Fixpoint join_sp (ws : list text) : text :=
  match ws with
  | [] => []
  | [w] => w
  | w :: r => w ++ 32 :: join_sp r
  end.

Lemma split_join (ws : list text) :
  Forall (fun w => w <> [] /\ nospace w = true) ws -> py_split (join_sp ws) = ws.
Proof.
  unfold py_split. induction ws as [| w r IH]; intros Hf; [reflexivity |].
  inversion Hf as [| ? ? [Hne Hw] Hr]; subst.
  assert (Hrev : rev w <> []) by (intros E; apply Hne; now apply (f_equal (@rev nat)) in E; rewrite rev_involutive in E).
  destruct r as [| w2 r'].
  - simpl. rewrite <- (app_nil_r w) at 1. rewrite split_word by exact Hw.
    rewrite app_nil_r. simpl. destruct (rev w) eqn:E; [contradiction |].
    rewrite <- E, rev_involutive. reflexivity.
  - change (join_sp (w :: w2 :: r')) with (w ++ 32 :: join_sp (w2 :: r')).
    rewrite split_word by exact Hw. rewrite app_nil_r. cbn [split_aux].
    replace (py_isspace 32) with true by reflexivity.
    destruct (rev w) eqn:E; [contradiction |].
    rewrite <- E, rev_involutive, IH by exact Hr. reflexivity.
Qed.

Lemma slice_wrap (body : text) : slice_2_m1 ([33; 40] ++ body ++ [41]) = body.
Proof.
  unfold slice_2_m1.
  replace (length ([33; 40] ++ body ++ [41]) - 1) with (2 + length body)
    by (rewrite !length_app; simpl; lia).
  simpl. rewrite firstn_app, Nat.sub_diag, firstn_all. simpl. apply app_nil_r.
Qed.

Lemma wrap_accepted (body : text) :
  startswith_open ([33; 40] ++ body ++ [41]) && endswith_close ([33; 40] ++ body ++ [41]) = true.
Proof.
  unfold endswith_close. simpl. rewrite rev_app_distr. reflexivity.
Qed.

Lemma txt_app (a b : string) : txt (a ++ b) = (txt a ++ txt b)%list.
Proof.
  induction a as [| c a IH]; [reflexivity |]. unfold txt in *. simpl. now rewrite IH.
Qed.

Lemma is_word_text (a : string) :
  is_word a = true -> txt a <> [] /\ nospace (txt a) = true /\ to_key (txt a) = a.
Proof.
  unfold is_word. intros H. apply andb_prop in H as [Hne H]. split; [| split].
  - destruct a; [discriminate | discriminate].
  - clear Hne. induction a as [| c a IH]; [reflexivity |].
    simpl in H |- *. apply andb_prop in H as [Hc H]. apply andb_prop in Hc as [_ Hc].
    unfold nospace in IH |- *. simpl. rewrite Hc. exact (IH H).
  - clear Hne. induction a as [| c a IH]; [reflexivity |].
    simpl in H. apply andb_prop in H as [Hc H]. apply andb_prop in Hc as [Hc _].
    unfold txt in IH. simpl. rewrite (IH H).
    unfold utf8_char. rewrite Hc. simpl. now rewrite Ascii.ascii_nat_embedding.
Qed.

Lemma digits_are_words (d : Decimal.uint) :
  forallb (fun ch => (Ascii.nat_of_ascii ch <? 128) && negb (py_isspace (Ascii.nat_of_ascii ch)))
    (list_ascii_of_string (NilZero.string_of_uint d)) = true.
Proof.
  assert (H : forall d, forallb (fun ch => (Ascii.nat_of_ascii ch <? 128) &&
    negb (py_isspace (Ascii.nat_of_ascii ch)))
    (list_ascii_of_string (NilEmpty.string_of_uint d)) = true).
  { induction d0; simpl; try reflexivity; exact IHd0. }
  unfold NilZero.string_of_uint. destruct d; try apply H; reflexivity.
Qed.

Lemma list_ascii_app (a b : string) :
  list_ascii_of_string (a ++ b) = (list_ascii_of_string a ++ list_ascii_of_string b)%list.
Proof. induction a as [| c a IH]; simpl; [reflexivity | now rewrite IH]. Qed.

Lemma agent_name_is_word (i : nat) : is_word (agent_name i) = true.
Proof.
  unfold is_word, agent_name. rewrite list_ascii_app, forallb_app, digits_are_words.
  reflexivity.
Qed.

(** The four command shapes are [!(] + words + [)]. *)
Lemma fmt_contribute_shape (a : string) :
  fmt_contribute a = ([33; 40] ++ join_sp [txt "action-contribute"; txt a] ++ [41])%list.
Proof. unfold fmt_contribute. simpl. repeat rewrite <- app_assoc. reflexivity. Qed.

Lemma fmt_share_shape (a : string) :
  fmt_share a = ([33; 40] ++ join_sp [txt "action-share"; txt a] ++ [41])%list.
Proof. unfold fmt_share. simpl. repeat rewrite <- app_assoc. reflexivity. Qed.

Lemma fmt_idle_shape (a : string) :
  fmt_idle a = ([33; 40] ++ join_sp [txt "action-idle"; txt a] ++ [41])%list.
Proof. unfold fmt_idle. simpl. repeat rewrite <- app_assoc. reflexivity. Qed.

Lemma fmt_transfer_shape (a b : string) (t : text) :
  fmt_transfer a b t =
  ([33; 40] ++ join_sp [txt "transfer-reputation"; txt a; txt b; t] ++ [41])%list.
Proof.
  unfold fmt_transfer. cbn [join_sp].
  repeat (rewrite <- app_assoc || rewrite <- app_comm_cons). reflexivity.
Qed.

(** A command [!(] + words + [)] calls the rule named by its first word
    with the other words. *)
Lemma run_text_wrapped (py_float : text -> option Q) (w : text) (ws : list text) (s : Store) :
  Forall (fun v => v <> [] /\ nospace v = true) (w :: ws) ->
  run_text py_float ([33; 40] ++ join_sp (w :: ws) ++ [41]) s =
  match find_rule w rules with
  | Some r => call_rule py_float r ws s
  | None => (RNone, s)
  end.
Proof.
  intros Hf. unfold run_text. rewrite wrap_accepted, slice_wrap, split_join by exact Hf.
  destruct ws; reflexivity.
Qed.



(** X12: the command texts that [step] formats,
    [!(action-contribute {agent_name})], [!(action-share ...)],
    [!(action-idle ...)] and [!(transfer-reputation {agent_name} {partner}
    {transfer_amount})], are split back into the rule's name and its
    arguments: for names that are single ASCII words (every [Agent_i] is one)
    and an amount text without white space that [float] reads as [x], [run]
    returns the rule's value and store, exactly as the direct rule call. *)
Theorem run_text_step_commands (py_float : text -> option Q) (a b : string)
  (transfer_amount : text) (x : Q) (s : Store)
  (Ha : is_word a = true) (Hb : is_word b = true)
  (Ht : transfer_amount <> []) (Htw : nospace transfer_amount = true)
  (Hx : py_float transfer_amount = Some x) :
  (forall i, is_word (agent_name i) = true) /\
  run_text py_float (fmt_contribute a) s =
    (RValue (fst (run (CContribute a) s)), snd (run (CContribute a) s)) /\
  run_text py_float (fmt_share a) s =
    (RValue (fst (run (CShare a) s)), snd (run (CShare a) s)) /\
  run_text py_float (fmt_idle a) s =
    (RValue (fst (run (CIdle a) s)), snd (run (CIdle a) s)) /\
  run_text py_float (fmt_transfer a b transfer_amount) s =
    (RValue (fst (run (CTransfer a b x) s)), snd (run (CTransfer a b x) s)).
Proof.
  destruct (is_word_text a Ha) as (Ha1 & Ha2 & Ha3).
  destruct (is_word_text b Hb) as (Hb1 & Hb2 & Hb3).
  split; [exact agent_name_is_word |].
  rewrite fmt_contribute_shape, fmt_share_shape, fmt_idle_shape, fmt_transfer_shape.
  rewrite !run_text_wrapped
    by (repeat constructor; first [assumption | discriminate | reflexivity]).
  cbn [find_rule rules]. unfold call_rule, run. rewrite Ha3, Hb3, Hx.
  repeat split.
  - destruct (action_contribute a s); reflexivity.
  - destruct (action_share a s); reflexivity.
  - destruct (action_idle a s); reflexivity.
  - destruct (action_transfer a b x s); reflexivity.
Qed.

Definition float_10 (t : text) : option Q :=
  if list_eq_dec Nat.eq_dec t (txt "10") then Some 10%Q else None.

Lemma run_text_step_commands_witness :
  is_word (agent_name 0) = true /\ is_word (agent_name 1) = true /\
  txt "10" <> [] /\ nospace (txt "10") = true /\ float_10 (txt "10") = Some 10%Q /\
  ((forall i, is_word (agent_name i) = true) /\
   run_text float_10 (fmt_contribute (agent_name 0)) [] =
     (RValue (fst (run (CContribute (agent_name 0)) [])), snd (run (CContribute (agent_name 0)) [])) /\
   run_text float_10 (fmt_share (agent_name 0)) [] =
     (RValue (fst (run (CShare (agent_name 0)) [])), snd (run (CShare (agent_name 0)) [])) /\
   run_text float_10 (fmt_idle (agent_name 0)) [] =
     (RValue (fst (run (CIdle (agent_name 0)) [])), snd (run (CIdle (agent_name 0)) [])) /\
   run_text float_10 (fmt_transfer (agent_name 0) (agent_name 1) (txt "10")) [] =
     (RValue (fst (run (CTransfer (agent_name 0) (agent_name 1) 10%Q) [])),
      snd (run (CTransfer (agent_name 0) (agent_name 1) 10%Q) []))).
Proof.
  split; [reflexivity |]. split; [reflexivity |]. split; [discriminate |].
  split; [reflexivity |]. split; [reflexivity |].
  apply (run_text_step_commands float_10 (agent_name 0) (agent_name 1) (txt "10") 10%Q []);
    first [reflexivity | discriminate].
Defined.



End RuntimeExtras.
